(** * face-emotion-app: a shallow embedding of [app.py]

    The Flask application has three routes.  [/predict] decodes a data URL,
    asks the FER detector for per-face emotion scores, picks the best
    label of the first face, logs it in SQLite and answers in JSON;
    [/history] reads the last 100 logged rows; [/] serves a template.

    Modelling choices.
    - Python values that cross the HTTP boundary are [json] terms; a Python
      [dict] is an association list in insertion order, read with
      [dict_get] (first binding), as iteration order matters for [max].
    - Scores are Python floats that the program only compares and passes
      on; they are modelled by the rationals they denote (no NaN).
    - Exceptions are an error monad [result]; handlers run in a state and
      error monad [M] over the SQLite file.  An uncaught exception is what
      Flask turns into a 500 answer.
    - The SQLite file is [database]: [None] when it holds no [predictions]
      table.  A connection works on a private copy that [conn_commit]
      writes back.  Storage failures (full disk, locked file, exhausted
      rowid space) are outside the model.
    - The base64 decoder, the PIL image parser and the FER detector are
      external libraries: section variables. *)

From Stdlib Require Import List String Ascii ZArith QArith Bool Lia.
From Stdlib Require Import Permutation Sorted.
Import ListNotations.

Local Close Scope Q_scope.
Local Open Scope string_scope.
Local Open Scope list_scope.

(** ** Exceptions and results *)

Inductive exn : Type :=
| ValueError
| TypeError
| AttributeError
| KeyError
| BinasciiError
| UnidentifiedImageError
| OperationalError.

Inductive result (A : Type) : Type :=
| Ok (a : A)
| Raise (e : exn).

Arguments Ok {A} a.
Arguments Raise {A} e.

(** ** Python dictionaries with string keys *)

Definition dict (V : Type) : Type := list (string * V).

Fixpoint dict_get {V : Type} (d : dict V) (k : string) : option V :=
  match d with
  | [] => None
  | (k', v) :: d' => if String.eqb k' k then Some v else dict_get d' k
  end.

Definition dict_keys {V : Type} (d : dict V) : list string := map fst d.

Definition dict_contains {V : Type} (d : dict V) (k : string) : bool :=
  match dict_get d k with Some _ => true | None => false end.

(** [d[k]]: raises [KeyError] on a missing key. *)
Definition dict_getitem {V : Type} (d : dict V) (k : string) : result V :=
  match dict_get d k with Some v => Ok v | None => Raise KeyError end.

(** ** JSON values, as [request.get_json] yields and [jsonify] takes them *)

#[local] Set Warnings "-register-all".

Inductive json : Type :=
| JNull
| JBool (b : bool)
| JNum (q : Q)
| JStr (s : string)
| JArr (l : list json)
| JObj (o : dict json).

(** Python truthiness, for [not payload]. *)
Definition truthy (p : json) : bool :=
  match p with
  | JNull => false
  | JBool b => b
  | JNum q => negb (Qeq_bool q 0%Q)
  | JStr s => negb (String.eqb s "")
  | JArr l => match l with [] => false | _ => true end
  | JObj o => match o with [] => false | _ => true end
  end.

Definition is_str (k : string) (p : json) : bool :=
  match p with JStr s => String.eqb s k | _ => false end.

Definition is_substring (k s : string) : bool :=
  match String.index 0 k s with Some _ => true | None => false end.

(** [k in p]: key membership for an object, element membership for an
    array, substring test for a string, [TypeError] otherwise. *)
Definition py_in (k : string) (p : json) : result bool :=
  match p with
  | JObj o => Ok (dict_contains o k)
  | JArr l => Ok (existsb (is_str k) l)
  | JStr s => Ok (is_substring k s)
  | JNull | JBool _ | JNum _ => Raise TypeError
  end.

(** [p[k]] with a string [k]: only an object can be indexed so. *)
Definition py_getitem (p : json) (k : string) : result json :=
  match p with
  | JObj o => dict_getitem o k
  | _ => Raise TypeError
  end.

Definition json_field (k : string) (p : json) : option json :=
  match p with JObj o => dict_get o k | _ => None end.

(** [float(x)] on a float is the identity. *)
Definition py_float (q : Q) : Q := q.

(** ** [max(iterable, key=f)]

    CPython keeps the first item and replaces it only when a later key is
    strictly greater.  [emotions.get] yields [None] for a missing key, and
    comparing with [None] raises [TypeError]. *)

Definition Qltb (x y : Q) : bool :=
  match (x ?= y)%Q with Lt => true | _ => false end.

Definition py_gt (a b : option Q) : result bool :=
  match a, b with
  | Some x, Some y => Ok (Qltb y x)
  | _, _ => Raise TypeError
  end.

Fixpoint max_loop (key : string -> option Q) (items : list string)
         (maxitem : string) (maxval : option Q) : result string :=
  match items with
  | [] => Ok maxitem
  | item :: rest =>
      let val := key item in
      match py_gt val maxval with
      | Raise e => Raise e
      | Ok true => max_loop key rest item val
      | Ok false => max_loop key rest maxitem maxval
      end
  end.

Definition py_max (items : list string) (key : string -> option Q)
  : result string :=
  match items with
  | [] => Raise ValueError
  | item :: rest => max_loop key rest item (key item)
  end.

(** ** [str.split(",", 1)] *)

Definition comma : ascii := ","%char.

Fixpoint str_split_1 (sep : ascii) (s : string) : list string :=
  match s with
  | EmptyString => [EmptyString]
  | String c r =>
      if Ascii.eqb c sep then [EmptyString; r]
      else match str_split_1 sep r with
           | h :: tl => String c h :: tl
           | [] => [String c EmptyString]
           end
  end.

(** ** Pixel buffers *)

Definition pixel : Type := (Byte.byte * Byte.byte * Byte.byte)%type.
Definition image : Type := list (list pixel).

(** [np.array] keeps the H x W x 3 layout of the PIL image. *)
Definition np_array (img : image) : image := img.

(** [cv2.cvtColor(arr, cv2.COLOR_RGB2BGR)] swaps the outer channels. *)
Definition cvtColor_RGB2BGR (arr : image) : image :=
  map (map (fun p : pixel => let '(r, g, b) := p in (b, g, r))) arr.

(** ** Detector output *)

Record face : Type := mkFace {
  box : Z * Z * Z * Z;
  emotions : option (dict Q)
}.

(** [f.get("emotions", {})]. *)
Definition face_get_emotions (f : face) : dict Q :=
  match emotions f with Some d => d | None => [] end.

(** ** The [predictions] table *)

Record row : Type := mkRow {
  id : Z;
  timestamp : string;
  emotion : string;
  confidence : Q
}.

(** Rows in storage order, and the AUTOINCREMENT high-water mark. *)
Record table : Type := mkTable {
  rows : list row;
  sqlite_sequence : Z
}.

Definition database : Type := option table.

Definition empty_table : table := mkTable [] 0%Z.

Definition max_rowid (l : list row) : Z :=
  fold_right (fun r m => Z.max (id r) m) 0%Z l.

(** AUTOINCREMENT: one more than the largest rowid ever used. *)
Definition next_rowid (t : table) : Z :=
  (Z.max (max_rowid (rows t)) (sqlite_sequence t) + 1)%Z.

Definition table_insert (t : table) (ts e : string) (c : Q) : table :=
  let n := next_rowid t in
  mkTable (rows t ++ [mkRow n ts e c]) n.

(** [ORDER BY id DESC]. *)
Fixpoint insert_desc (r : row) (l : list row) : list row :=
  match l with
  | [] => [r]
  | x :: l' =>
      if (id x <=? id r)%Z then r :: x :: l' else x :: insert_desc r l'
  end.

Definition order_by_id_desc (l : list row) : list row :=
  fold_right insert_desc [] l.

Definition records (db : database) : list row :=
  match db with Some t => rows t | None => [] end.

(** ** The handler monad: state (the SQLite file) and exceptions *)

Definition M (A : Type) : Type := database -> result A * database.

Definition ret {A : Type} (a : A) : M A := fun db => (Ok a, db).

Definition bind {A B : Type} (m : M A) (k : A -> M B) : M B :=
  fun db =>
    match m db with
    | (Ok a, db') => k a db'
    | (Raise e, db') => (Raise e, db')
    end.

Definition lift {A : Type} (r : result A) : M A := fun db => (r, db).

Notation "x <- m ;; k" := (bind m (fun x => k))
  (at level 61, m at next level, right associativity).
Notation "m ;;; k" := (bind m (fun _ => k))
  (at level 61, right associativity).

(** ** [sqlite3] connections *)

Record connection : Type := mkConn { working : database }.

Definition connect : M connection := fun db => (Ok (mkConn db), db).

Definition conn_commit (conn : connection) : M unit :=
  fun _ => (Ok tt, working conn).

Definition conn_close (conn : connection) : M unit := ret tt.

(** [CREATE TABLE IF NOT EXISTS predictions (...)]. *)
Definition execute_create_table (conn : connection) : result connection :=
  match working conn with
  | Some _ => Ok conn
  | None => Ok (mkConn (Some empty_table))
  end.

(** [INSERT INTO predictions (timestamp, emotion, confidence)
     VALUES (?, ?, ?)]. *)
Definition execute_insert (conn : connection) (ts e : string) (c : Q)
  : result connection :=
  match working conn with
  | Some t => Ok (mkConn (Some (table_insert t ts e c)))
  | None => Raise OperationalError
  end.

(** [SELECT timestamp, emotion, confidence FROM predictions
     ORDER BY id DESC LIMIT 100], then [fetchall]. *)
Definition execute_select (conn : connection)
  : result (list (string * string * Q)) :=
  match working conn with
  | Some t =>
      Ok (map (fun r => (timestamp r, emotion r, confidence r))
              (firstn 100 (order_by_id_desc (rows t))))
  | None => Raise OperationalError
  end.

(** ** Database helpers *)

Definition init_db : M unit :=
  conn <- connect ;;
  conn' <- lift (execute_create_table conn) ;;
  conn_commit conn' ;;;
  conn_close conn'.

(** [now] is the reading of [datetime.utcnow().isoformat()]. *)
Definition save_prediction (now : string) (emotion : string) (confidence : Q)
  : M unit :=
  conn <- connect ;;
  conn' <- lift (execute_insert conn now emotion (py_float confidence)) ;;
  conn_commit conn' ;;;
  conn_close conn'.

(** ** Routes *)

Definition response : Type := (json * nat)%type.

Definition row_json (r : string * string * Q) : json :=
  let '(ts, e, c) := r in
  JObj [("timestamp", JStr ts); ("emotion", JStr e); ("confidence", JNum c)].

Definition history : M response :=
  conn <- connect ;;
  fetched <- lift (execute_select conn) ;;
  conn_close conn ;;;
  let data := map row_json fetched in
  ret (JObj [("history", JArr data)], 200).

Definition missing_image : response :=
  (JObj [("error", JStr "Missing 'image' in JSON body")], 400).

Definition invalid_image : response :=
  (JObj [("error", JStr "Invalid image data")], 400).

Definition no_result (message : string) : response :=
  (JObj [("emotion", JNull); ("confidence", JNum 0%Q);
         ("message", JStr message)],
   200).

Definition prediction (e : string) (c : Q) : response :=
  (JObj [("emotion", JStr e); ("confidence", JNum c)], 200).

Section App.

(** [base64.b64decode]. *)
Variable b64decode : string -> result (list Byte.byte).
(** [Image.open(io.BytesIO(binary)).convert("RGB")]. *)
Variable pil_open_rgb : list Byte.byte -> result image.
(** [detector.detect_emotions]. *)
Variable detect_emotions : image -> list face.

(** Only the [ValueError] of the unpacking is caught. *)
Definition data_url_to_cv2_image (data_url : json) : result (option image) :=
  match data_url with
  | JStr s =>
      match str_split_1 comma s with
      | [header; encoded] =>
          match b64decode encoded with
          | Raise e => Raise e
          | Ok binary =>
              match pil_open_rgb binary with
              | Raise e => Raise e
              | Ok pil_img =>
                  let arr := np_array pil_img in
                  let bgr := cvtColor_RGB2BGR arr in
                  Ok (Some bgr)
              end
          end
      | _ => Ok None
      end
  | _ => Raise AttributeError
  end.

Definition predict (payload : json) (now : string) : M response :=
  if negb (truthy payload) then ret missing_image
  else
    has_image <- lift (py_in "image" payload) ;;
    if negb has_image then ret missing_image
    else
      data_url <- lift (py_getitem payload "image") ;;
      cv_img <- lift (data_url_to_cv2_image data_url) ;;
      match cv_img with
      | None => ret invalid_image
      | Some img =>
          match detect_emotions img with
          | [] => ret (no_result "No face detected")
          | face0 :: _ =>
              let emotions := face_get_emotions face0 in
              match emotions with
              | [] => ret (no_result "No emotion scores")
              | _ :: _ =>
                  emotion <- lift (py_max (dict_keys emotions)
                                          (dict_get emotions)) ;;
                  score <- lift (dict_getitem emotions emotion) ;;
                  let confidence := py_float score in
                  save_prediction now emotion confidence ;;;
                  ret (prediction emotion confidence)
              end
          end
      end.

End App.

(** ** Vocabulary of the statements *)

(** [e] is a label of [d] whose score [c] no score of [d] exceeds. *)
Definition top_emotion (d : dict Q) (e : string) (c : Q) : Prop :=
  dict_get d e = Some c /\
  forall k v, dict_get d k = Some v -> (v <= c)%Q.

Definition has_comma (s : string) : Prop :=
  exists a b, s = (a ++ String comma b)%string.

Definition in_unit_interval (c : Q) : Prop := (0 <= c)%Q /\ (c <= 1)%Q.

(** What [predict] reads of the detector's answer. *)
Definition first_scores (faces : list face) : option (dict Q) :=
  match faces with
  | [] => None
  | face0 :: _ => Some (face_get_emotions face0)
  end.

(** The JSON entry [history] builds for a stored row. *)
Definition entry (r : row) : json :=
  JObj [("timestamp", JStr (timestamp r));
        ("emotion", JStr (emotion r));
        ("confidence", JNum (confidence r))].

(** Rowids grow along the storage order: what inserts alone produce. *)
Definition ascending (l : list row) : Prop :=
  StronglySorted (fun a b => (id a < id b)%Z) l.

Definition descending (l : list row) : Prop :=
  StronglySorted (fun a b => (id b <= id a)%Z) l.

(** The ways a [/predict] request can end, with the store it leaves:
    an uncaught exception, one of the two 400 answers, a 200 answer without
    a result, or a logged result. *)
Inductive predict_outcome
  (decode : json -> result (option image)) (detect : image -> list face)
  (payload : json) (now : string) (db : database)
  : result response -> database -> Prop :=
| Outcome_raise (e : exn) :
    predict_outcome decode detect payload now db (Raise e) db
| Outcome_missing :
    predict_outcome decode detect payload now db (Ok missing_image) db
| Outcome_invalid (o : dict json) (s : string) :
    payload = JObj o ->
    dict_get o "image" = Some (JStr s) ->
    ~ has_comma s ->
    predict_outcome decode detect payload now db (Ok invalid_image) db
| Outcome_no_face (o : dict json) (v : json) (img : image) :
    payload = JObj o ->
    dict_get o "image" = Some v ->
    decode v = Ok (Some img) ->
    detect img = [] ->
    predict_outcome decode detect payload now db
                    (Ok (no_result "No face detected")) db
| Outcome_no_scores (o : dict json) (v : json) (img : image)
                    (face0 : face) (others : list face) :
    payload = JObj o ->
    dict_get o "image" = Some v ->
    decode v = Ok (Some img) ->
    detect img = face0 :: others ->
    face_get_emotions face0 = [] ->
    predict_outcome decode detect payload now db
                    (Ok (no_result "No emotion scores")) db
| Outcome_logged (o : dict json) (v : json) (img : image)
                 (face0 : face) (others : list face)
                 (e : string) (c : Q) (t : table) :
    payload = JObj o ->
    dict_get o "image" = Some v ->
    decode v = Ok (Some img) ->
    detect img = face0 :: others ->
    top_emotion (face_get_emotions face0) e c ->
    db = Some t ->
    predict_outcome decode detect payload now db
                    (Ok (prediction e c)) (Some (table_insert t now e c)).

(** ** Sample externals and requests *)

Module Demo.

(** A decoder that knows one payload. *)
Definition b64decode (s : string) : result (list Byte.byte) :=
  if String.eqb s "AAAA" then Ok [Byte.x00; Byte.x00; Byte.x00]
  else Raise BinasciiError.

Definition pil_open_rgb (b : list Byte.byte) : result image :=
  match b with
  | [] => Raise UnidentifiedImageError
  | _ => Ok [[(Byte.x01, Byte.x02, Byte.x03)]]
  end.

Definition img : image := [[(Byte.x03, Byte.x02, Byte.x01)]].

Definition scores : dict Q :=
  [("angry", (1 # 10)%Q); ("happy", (7 # 10)%Q); ("sad", (2 # 10)%Q)].

Definition face_a : face := mkFace (0, 0, 48, 48)%Z (Some scores).
Definition face_b : face :=
  mkFace (60, 0, 48, 48)%Z (Some [("sad", (9 # 10)%Q)]).
Definition face_blank : face := mkFace (0, 0, 48, 48)%Z (Some []).

Definition detect_one (_ : image) : list face := [face_a].
Definition detect_two (_ : image) : list face := [face_a; face_b].
Definition detect_none (_ : image) : list face := [].
Definition detect_blank_first (_ : image) : list face :=
  [face_blank; face_b].

Definition payload : json :=
  JObj [("image", JStr "data:image/png;base64,AAAA")].

Definition bare_payload : json := JObj [("image", JStr "AAAA")].

Definition now : string := "2024-05-01T10:00:00".

Definition log : table :=
  mkTable [mkRow 1 "2024-04-30T09:00:00" "sad" (6 # 10)%Q] 1.

End Demo.

(** ** The application: start-up and a run of requests *)

(** The three routes, with what a request brings: the JSON body and, for
    [/predict], the reading of the clock when the row is written. *)
Inductive request : Type :=
| GET_index
| POST_predict (payload : json) (now : string)
| GET_history.

Inductive reply : Type :=
| Page (html : string)
| Json (r : response).

Section Server.

Variable b64decode : string -> result (list Byte.byte).
Variable pil_open_rgb : list Byte.byte -> result image.
Variable detect_emotions : image -> list face.
(** [flask.render_template]. *)
Variable render_template : string -> result string.

Definition index : M string := lift (render_template "index.html").

Definition handle (req : request) : M reply :=
  match req with
  | GET_index => html <- index ;; ret (Page html)
  | POST_predict payload now =>
      r <- predict b64decode pil_open_rgb detect_emotions payload now ;;
      ret (Json r)
  | GET_history => r <- history ;; ret (Json r)
  end.

(** Requests handled one after another: each handler runs to its end on
    the store the previous one left; an exception is answered by Flask
    and the next request is served. *)
Fixpoint serve (reqs : list request) (db : database)
  : list (result reply) * database :=
  match reqs with
  | [] => ([], db)
  | req :: rest =>
      let (out, db') := handle req db in
      let (outs, db'') := serve rest db' in
      (out :: outs, db'')
  end.

End Server.

(** Loading the module runs [init_db()] before any request. *)
Definition start (db : database) : database := snd (init_db db).

(** What a request and its answer say was predicted, if anything. *)
Definition logged_one (req : request) (out : result reply)
  : option (string * string * Q) :=
  match req, out with
  | POST_predict _ now, Ok (Json (body, _)) =>
      match json_field "emotion" body, json_field "confidence" body with
      | Some (JStr e), Some (JNum c) => Some (now, e, c)
      | _, _ => None
      end
  | _, _ => None
  end.

Fixpoint logged (reqs : list request) (outs : list (result reply))
  : list (string * string * Q) :=
  match reqs, outs with
  | req :: reqs', out :: outs' =>
      match logged_one req out with
      | Some x => x :: logged reqs' outs'
      | None => logged reqs' outs'
      end
  | _, _ => []
  end.

(** Rows with consecutive rowids from [n] on. *)
Fixpoint number (n : Z) (l : list (string * string * Q)) : list row :=
  match l with
  | [] => []
  | (ts, e, c) :: l' => mkRow n ts e c :: number (n + 1)%Z l'
  end.

Definition read_only (req : request) : Prop :=
  match req with POST_predict _ _ => False | _ => True end.

Definition unit_confidences (l : list row) : Prop :=
  Forall (fun r => in_unit_interval (confidence r)) l.

Definition unique_ids (l : list row) : Prop := NoDup (map id l).

Module Sample.

Definition render_template (name : string) : result string :=
  if String.eqb name "index.html" then Ok "<html>camera page</html>"
  else Raise ValueError.

Definition requests : list request :=
  [GET_index;
   POST_predict Demo.payload "2024-05-01T10:00:00";
   POST_predict Demo.bare_payload "2024-05-01T10:00:05";
   GET_history;
   POST_predict Demo.payload "2024-05-01T10:00:09"].

Definition page_views : list request := [GET_index; GET_history; GET_index].

End Sample.

(** * Properties *)

(** ** Dictionaries and [max] *)

Lemma dict_get_keys {V : Type} (d : dict V) (k : string) :
  In k (dict_keys d) -> exists v, dict_get d k = Some v.
Proof.
  induction d as [|[k' v'] d IH]; simpl; [tauto|].
  intros [Hk | Hin].
  - subst k'. rewrite String.eqb_refl. eauto.
  - destruct (String.eqb k' k); eauto.
Qed.

Lemma dict_keys_get {V : Type} (d : dict V) (k : string) (v : V) :
  dict_get d k = Some v -> In k (dict_keys d).
Proof.
  induction d as [|[k' v'] d IH]; simpl; [discriminate|].
  destruct (String.eqb k' k) eqn:E.
  - apply String.eqb_eq in E. auto.
  - auto.
Qed.

Lemma Qltb_true (x y : Q) : Qltb x y = true -> (x < y)%Q.
Proof.
  unfold Qltb. intros H. apply Qlt_alt.
  destruct (x ?= y)%Q; congruence.
Qed.

Lemma Qltb_false (x y : Q) : Qltb x y = false -> (y <= x)%Q.
Proof.
  unfold Qltb. intros H. apply Qnot_lt_le. intros Hlt.
  assert (Hc : (x ?= y)%Q = Lt) by (apply Qlt_alt; exact Hlt).
  rewrite Hc in H. discriminate.
Qed.

(** The loop never compares with [None] when every item is a key, and it
    ends on a key whose score bounds the starting score and all items'. *)
Lemma max_loop_spec (d : dict Q) :
  forall items maxitem maxval,
    dict_get d maxitem = Some maxval ->
    (forall k, In k items -> exists v, dict_get d k = Some v) ->
    exists e c,
      max_loop (dict_get d) items maxitem (Some maxval) = Ok e /\
      dict_get d e = Some c /\
      (maxval <= c)%Q /\
      forall k v, In k items -> dict_get d k = Some v -> (v <= c)%Q.
Proof.
  induction items as [|a items IH]; intros maxitem maxval Hmax Hkeys.
  - exists maxitem, maxval. simpl. repeat split; auto.
    + apply Qle_refl.
    + intros k v [].
  - destruct (Hkeys a (or_introl eq_refl)) as [va Ha].
    assert (Hrest : forall k, In k items -> exists v, dict_get d k = Some v)
      by (intros k Hk; apply Hkeys; right; exact Hk).
    simpl. rewrite Ha. simpl.
    destruct (Qltb maxval va) eqn:E.
    + apply Qltb_true in E.
      destruct (IH a va Ha Hrest) as (e & c & Hrun & Hget & Hle & Hall).
      exists e, c. repeat split; auto.
      * apply Qle_trans with va; [apply Qlt_le_weak; exact E | exact Hle].
      * intros k v [Hk | Hk] Hv.
        -- subst k. rewrite Ha in Hv. injection Hv as <-. exact Hle.
        -- eapply Hall; eauto.
    + apply Qltb_false in E.
      destruct (IH maxitem maxval Hmax Hrest)
        as (e & c & Hrun & Hget & Hle & Hall).
      exists e, c. repeat split; auto.
      intros k v [Hk | Hk] Hv.
      * subst k. rewrite Ha in Hv. injection Hv as <-.
        apply Qle_trans with maxval; assumption.
      * eapply Hall; eauto.
Qed.

(** [max(emotions, key=emotions.get)] on a non-empty dictionary. *)
Lemma py_max_top (d : dict Q) :
  d <> [] ->
  exists e c,
    py_max (dict_keys d) (dict_get d) = Ok e /\ top_emotion d e c.
Proof.
  destruct d as [|[k0 v0] d]; [congruence|]. intros _.
  assert (H0 : dict_get ((k0, v0) :: d) k0 = Some v0)
    by (simpl; rewrite String.eqb_refl; reflexivity).
  destruct (max_loop_spec ((k0, v0) :: d) (dict_keys d) k0 v0 H0)
    as (e & c & Hrun & Hget & Hle & Hall).
  { intros k Hk. apply dict_get_keys. right. exact Hk. }
  exists e, c. split.
  - unfold py_max. cbn [dict_keys map fst]. rewrite H0. exact Hrun.
  - split; [exact Hget|].
    intros k v Hv.
    pose proof (dict_keys_get _ _ _ Hv) as [Hk | Hk].
    + simpl in Hk. subst k. rewrite H0 in Hv. injection Hv as <-. exact Hle.
    + eapply Hall; eauto.
Qed.

(** ** [ORDER BY id DESC] and AUTOINCREMENT *)

Lemma insert_desc_perm (r : row) (l : list row) :
  Permutation (insert_desc r l) (r :: l).
Proof.
  induction l as [|x l IH]; simpl.
  - apply Permutation_refl.
  - destruct (id x <=? id r)%Z.
    + apply Permutation_refl.
    + eapply perm_trans; [apply perm_skip, IH | apply perm_swap].
Qed.

Lemma order_by_id_desc_perm (l : list row) :
  Permutation (order_by_id_desc l) l.
Proof.
  induction l as [|r l IH]; simpl.
  - constructor.
  - eapply perm_trans; [apply insert_desc_perm | apply perm_skip, IH].
Qed.

Lemma insert_desc_sorted (r : row) (l : list row) :
  descending l -> descending (insert_desc r l).
Proof.
  unfold descending.
  induction l as [|x l IH]; simpl; intros Hs.
  - repeat constructor.
  - inversion Hs as [|? ? Hl Hx]; subst.
    destruct (id x <=? id r)%Z eqn:E.
    + apply Z.leb_le in E. constructor; [exact Hs|].
      constructor; [exact E|].
      rewrite Forall_forall in *. intros y Hy. specialize (Hx y Hy). lia.
    + apply Z.leb_gt in E. constructor; [apply IH; exact Hl|].
      rewrite Forall_forall in *. intros y Hy.
      apply (Permutation_in _ (insert_desc_perm r l)) in Hy.
      destruct Hy as [<- | Hy]; [lia | apply Hx; exact Hy].
Qed.

Lemma order_by_id_desc_sorted (l : list row) :
  descending (order_by_id_desc l).
Proof.
  induction l as [|r l IH]; simpl.
  - constructor.
  - apply insert_desc_sorted, IH.
Qed.

(** A row above all others sorts first, wherever it is stored. *)
Lemma order_by_id_desc_newest (l : list row) (x : row) :
  (forall r, In r l -> (id r < id x)%Z) ->
  order_by_id_desc (l ++ [x]) = x :: order_by_id_desc l.
Proof.
  induction l as [|a l IH]; intros Hlt; simpl.
  - reflexivity.
  - rewrite IH by (intros r Hr; apply Hlt; right; exact Hr).
    simpl.
    assert (Ha : (id a < id x)%Z) by (apply Hlt; left; reflexivity).
    apply Z.leb_gt in Ha. rewrite Ha. reflexivity.
Qed.

Lemma insert_desc_lowest (r : row) (l : list row) :
  (forall x, In x l -> (id r < id x)%Z) ->
  insert_desc r l = l ++ [r].
Proof.
  induction l as [|x l IH]; intros Hlt; simpl.
  - reflexivity.
  - assert (Hx : (id r < id x)%Z) by (apply Hlt; left; reflexivity).
    apply Z.leb_gt in Hx. rewrite Hx.
    rewrite IH by (intros y Hy; apply Hlt; right; exact Hy).
    reflexivity.
Qed.

(** On a table filled by inserts alone, newest first is storage order
    reversed. *)
Lemma order_by_id_desc_ascending (l : list row) :
  ascending l -> order_by_id_desc l = rev l.
Proof.
  unfold ascending.
  induction l as [|a l IH]; intros Hs; simpl.
  - reflexivity.
  - inversion Hs as [|? ? Hl Ha]; subst.
    rewrite (IH Hl). apply insert_desc_lowest.
    intros x Hx. apply in_rev in Hx.
    rewrite Forall_forall in Ha. apply Ha. exact Hx.
Qed.

Lemma max_rowid_bound (l : list row) (r : row) :
  In r l -> (id r <= max_rowid l)%Z.
Proof.
  induction l as [|x l IH]; [intros []|].
  change (max_rowid (x :: l)) with (Z.max (id x) (max_rowid l)).
  intros [<- | Hin]; [lia|]. specialize (IH Hin). lia.
Qed.

(** AUTOINCREMENT hands out a rowid above every stored one. *)
Lemma next_rowid_fresh (t : table) (r : row) :
  In r (rows t) -> (id r < next_rowid t)%Z.
Proof.
  intros Hin. apply max_rowid_bound in Hin. unfold next_rowid. lia.
Qed.

Lemma table_insert_ascending (t : table) (ts e : string) (c : Q) :
  ascending (rows t) -> ascending (rows (table_insert t ts e c)).
Proof.
  unfold ascending, table_insert. simpl.
  pose proof (next_rowid_fresh t) as Hfresh.
  generalize dependent (next_rowid t). intros n Hfresh.
  induction (rows t) as [|a l IH]; simpl; intros Hs.
  - repeat constructor.
  - inversion Hs as [|? ? Hl Ha]; subst.
    constructor.
    + apply IH; [|exact Hl]. intros r Hr. apply Hfresh. right. exact Hr.
    + rewrite Forall_forall in *. intros y Hy.
      apply in_app_or in Hy. destruct Hy as [Hy | [<- | []]].
      * apply Ha. exact Hy.
      * simpl. apply Hfresh. left. reflexivity.
Qed.

(** ** Database helpers, run *)

Lemma init_db_run (db : database) :
  init_db db =
  (Ok tt, Some (match db with Some t => t | None => empty_table end)).
Proof. destruct db; reflexivity. Qed.

Lemma save_prediction_run (now e : string) (c : Q) (t : table) :
  save_prediction now e c (Some t) = (Ok tt, Some (table_insert t now e c)).
Proof. reflexivity. Qed.

Lemma save_prediction_no_table (now e : string) (c : Q) :
  save_prediction now e c None = (Raise OperationalError, None).
Proof. reflexivity. Qed.

Lemma history_run (t : table) :
  history (Some t) =
  (Ok (JObj [("history",
              JArr (map entry (firstn 100 (order_by_id_desc (rows t)))))],
       200),
   Some t).
Proof.
  unfold history, bind, connect, lift, execute_select, conn_close, ret.
  simpl. rewrite map_map. reflexivity.
Qed.

Lemma history_no_table : history None = (Raise OperationalError, None).
Proof. reflexivity. Qed.

(** ** [split(",", 1)] *)

Lemma no_comma_empty : ~ has_comma "".
Proof. intros (a & b & H). destruct a; discriminate. Qed.

Lemma no_comma_cons (c : ascii) (s : string) :
  Ascii.eqb c comma = false -> ~ has_comma s -> ~ has_comma (String c s).
Proof.
  intros Hc Hs (a & b & H). destruct a as [|c' a]; simpl in H.
  - injection H as -> _. rewrite Ascii.eqb_refl in Hc. discriminate.
  - injection H as _ ->. apply Hs. exists a, b. reflexivity.
Qed.

(** Either the string has no comma and comes back whole, or it is cut at
    its first comma. *)
Lemma str_split_1_cases (s : string) :
  (~ has_comma s /\ str_split_1 comma s = [s]) \/
  (exists a b, s = (a ++ String comma b)%string /\ ~ has_comma a /\
               str_split_1 comma s = [a; b]).
Proof.
  induction s as [|c r IH]; simpl.
  - left. split; [apply no_comma_empty | reflexivity].
  - destruct (Ascii.eqb c comma) eqn:E.
    + apply Ascii.eqb_eq in E. subst c. right. exists "", r.
      repeat split. apply no_comma_empty.
    + destruct IH as [[Hno Hsplit] | (a & b & Heq & Hno & Hsplit)].
      * left. rewrite Hsplit. split; [|reflexivity].
        apply no_comma_cons; assumption.
      * right. exists (String c a), b. rewrite Hsplit. subst r.
        repeat split. apply no_comma_cons; assumption.
Qed.

Lemma str_split_1_at_comma (a b : string) :
  ~ has_comma a -> str_split_1 comma (a ++ String comma b) = [a; b].
Proof.
  induction a as [|c a IH]; intros Hno; simpl.
  - reflexivity.
  - destruct (Ascii.eqb c comma) eqn:E.
    + exfalso. apply Hno. apply Ascii.eqb_eq in E. subst c.
      exists "", a. reflexivity.
    + rewrite IH; [reflexivity|].
      intros (x & y & H). apply Hno. exists (String c x), y.
      simpl. rewrite H. reflexivity.
Qed.

(** ** The routes *)

Section Routes.

Variable b64decode : string -> result (list Byte.byte).
Variable pil_open_rgb : list Byte.byte -> result image.
Variable detect_emotions : image -> list face.

Local Abbreviation decode := (data_url_to_cv2_image b64decode pil_open_rgb).
Local Abbreviation predict_ :=
  (predict b64decode pil_open_rgb detect_emotions).

Lemma decode_cut (a b : string) :
  ~ has_comma a ->
  decode (JStr (a ++ String comma b)) =
  match b64decode b with
  | Raise e => Raise e
  | Ok binary =>
      match pil_open_rgb binary with
      | Raise e => Raise e
      | Ok pil_img => Ok (Some (cvtColor_RGB2BGR pil_img))
      end
  end.
Proof.
  intros Hno. unfold data_url_to_cv2_image.
  rewrite (str_split_1_at_comma a b Hno). reflexivity.
Qed.

Lemma decode_none_iff (s : string) :
  decode (JStr s) = Ok None <-> ~ has_comma s.
Proof.
  destruct (str_split_1_cases s)
    as [[Hno Hsplit] | (a & b & Heq & Hno & Hsplit)].
  - split; [intros _; exact Hno|]. intros _.
    unfold data_url_to_cv2_image. rewrite Hsplit. reflexivity.
  - split.
    + subst s. rewrite (decode_cut a b Hno).
      destruct (b64decode b); [|discriminate].
      destruct (pil_open_rgb a0); discriminate.
    + intros Hs. exfalso. apply Hs. exists a, b. exact Heq.
Qed.

(** Up to the detector call. *)
Lemma predict_detected (o : dict json) (v : json) (img : image)
      (now : string) (db : database) :
  dict_get o "image" = Some v ->
  decode v = Ok (Some img) ->
  predict_ (JObj o) now db =
  match detect_emotions img with
  | [] => (Ok (no_result "No face detected"), db)
  | face0 :: _ =>
      match face_get_emotions face0 with
      | [] => (Ok (no_result "No emotion scores"), db)
      | _ :: _ =>
          (emotion <- lift (py_max (dict_keys (face_get_emotions face0))
                                   (dict_get (face_get_emotions face0))) ;;
           score <- lift (dict_getitem (face_get_emotions face0) emotion) ;;
           save_prediction now emotion (py_float score) ;;;
           ret (prediction emotion (py_float score))) db
      end
  end.
Proof.
  intros Hv Hd. unfold predict.
  destruct o as [|kv o]; [discriminate|].
  cbn [truthy negb py_in py_getitem].
  unfold dict_contains, dict_getitem. rewrite Hv.
  unfold bind at 1, lift at 1. cbn [negb].
  unfold bind at 1, lift at 1.
  unfold bind at 1, lift at 1. rewrite Hd.
  destruct (detect_emotions img) as [|face0 others]; [reflexivity|].
  destruct (face_get_emotions face0); reflexivity.
Qed.

Lemma predict_logged (o : dict json) (v : json) (img : image)
      (face0 : face) (others : list face) (now : string) (t : table) :
  dict_get o "image" = Some v ->
  decode v = Ok (Some img) ->
  detect_emotions img = face0 :: others ->
  face_get_emotions face0 <> [] ->
  exists e c,
    top_emotion (face_get_emotions face0) e c /\
    predict_ (JObj o) now (Some t) =
    (Ok (prediction e c), Some (table_insert t now e c)).
Proof.
  intros Hv Hd Hf Hne.
  destruct (py_max_top _ Hne) as (e & c & Hmax & Htop).
  exists e, c. split; [exact Htop|].
  rewrite (predict_detected o v img now (Some t) Hv Hd), Hf.
  destruct (face_get_emotions face0) as [|kv d] eqn:Hd0; [congruence|].
  unfold bind at 1, lift at 1. rewrite Hmax.
  unfold bind at 1, lift at 1, dict_getitem.
  destruct Htop as [Hget _]. rewrite Hget.
  reflexivity.
Qed.

(** Every run of [predict] ends in one of the listed ways. *)
Lemma predict_inv (payload : json) (now : string) (db : database) :
  predict_outcome decode detect_emotions payload now db
                  (fst (predict_ payload now db))
                  (snd (predict_ payload now db)).
Proof.
  destruct (truthy payload) eqn:Ht.
  2:{ unfold predict. rewrite Ht. apply Outcome_missing. }
  destruct payload as [| b | q | s | l | o];
    try (unfold predict; rewrite Ht; apply Outcome_raise).
  - unfold predict. rewrite Ht. cbn [negb py_in py_getitem].
    unfold bind, lift.
    destruct (is_substring "image" s);
      [apply Outcome_raise | apply Outcome_missing].
  - unfold predict. rewrite Ht. cbn [negb py_in py_getitem].
    unfold bind, lift.
    destruct (existsb (is_str "image") l);
      [apply Outcome_raise | apply Outcome_missing].
  - destruct (dict_get o "image") as [v|] eqn:Hv.
    2:{ unfold predict. rewrite Ht. cbn [negb py_in].
        unfold bind, lift, dict_contains. rewrite Hv.
        apply Outcome_missing. }
    destruct (decode v) as [[img|]|e] eqn:Hd.
    + rewrite (predict_detected o v img now db Hv Hd).
      destruct (detect_emotions img) as [|face0 others] eqn:Hf.
      { eapply Outcome_no_face; eauto. }
      destruct (face_get_emotions face0) as [|kv d] eqn:He.
      { eapply Outcome_no_scores; eauto. }
      destruct db as [t|].
      * assert (Hne : face_get_emotions face0 <> []) by congruence.
        destruct (predict_logged o v img face0 others now t Hv Hd Hf Hne)
          as (e & c & Htop & Hrun).
        rewrite (predict_detected o v img now (Some t) Hv Hd), Hf, He in Hrun.
        rewrite Hrun. eapply Outcome_logged; eauto.
      * unfold bind, lift.
        destruct (py_max _ _); [|apply Outcome_raise].
        destruct (dict_getitem _ _); apply Outcome_raise.
    + destruct v as [| b | q | s | l | o'];
        try (simpl in Hd; discriminate).
      apply decode_none_iff in Hd.
      unfold predict. rewrite Ht. cbn [negb py_in py_getitem].
      unfold bind, lift, dict_contains, dict_getitem. rewrite Hv.
      cbn [negb].
      destruct (data_url_to_cv2_image _ _ _) as [[img|]|e] eqn:Hd'.
      * apply decode_none_iff in Hd. congruence.
      * eapply Outcome_invalid; eauto.
      * apply decode_none_iff in Hd. congruence.
    + unfold predict. rewrite Ht. cbn [negb py_in py_getitem].
      unfold bind, lift, dict_contains, dict_getitem. rewrite Hv.
      cbn [negb]. rewrite Hd. apply Outcome_raise.
Qed.

End Routes.

(** ** Startup *)

(** [init_db] runs when the module is loaded: requests see a store that
    holds the table, and [init_db] never touches stored rows. *)
Lemma init_db_creates_table (db : database) :
  exists t, snd (init_db db) = Some t /\ rows t = records db.
Proof.
  rewrite init_db_run. destruct db as [t|]; simpl; eauto.
Qed.

Lemma init_db_idempotent (t : table) : init_db (Some t) = (Ok tt, Some t).
Proof. reflexivity. Qed.

Lemma sorted_app_inv {A : Type} (R : A -> A -> Prop) (l1 l2 : list A) :
  StronglySorted R (l1 ++ l2) ->
  StronglySorted R l1 /\ forall x y, In x l1 -> In y l2 -> R x y.
Proof.
  induction l1 as [|a l1 IH]; simpl; intros Hs.
  - split; [constructor | intros x y []].
  - inversion Hs as [|? ? Hl Ha]; subst.
    destruct (IH Hl) as [Hs1 Hcross].
    rewrite Forall_forall in Ha. split.
    + constructor; [exact Hs1|].
      rewrite Forall_forall. intros x Hx. apply Ha, in_or_app. left. exact Hx.
    + intros x y [<- | Hx] Hy.
      * apply Ha, in_or_app. right. exact Hy.
      * apply Hcross; assumption.
Qed.

(** ** Worked requests *)

Example decode_demo :
  data_url_to_cv2_image Demo.b64decode Demo.pil_open_rgb
    (JStr "data:image/png;base64,AAAA") = Ok (Some Demo.img).
Proof. reflexivity. Qed.

Example predict_demo :
  predict Demo.b64decode Demo.pil_open_rgb Demo.detect_one
          Demo.payload Demo.now (Some Demo.log) =
  (Ok (prediction "happy" (7 # 10)%Q),
   Some (mkTable [mkRow 1 "2024-04-30T09:00:00" "sad" (6 # 10)%Q;
                  mkRow 2 Demo.now "happy" (7 # 10)%Q] 2)).
Proof. reflexivity. Qed.

(** On equal scores [max] keeps the label met first. *)
Example py_max_tie :
  let d := [("sad", (1 # 2)%Q); ("happy", (1 # 2)%Q)] in
  py_max (dict_keys d) (dict_get d) = Ok "sad".
Proof. reflexivity. Qed.

Example predict_bad_base64 :
  predict Demo.b64decode Demo.pil_open_rgb Demo.detect_one
          (JObj [("image", JStr "data:,A")]) Demo.now (Some Demo.log) =
  (Raise BinasciiError, Some Demo.log).
Proof. reflexivity. Qed.

Example predict_no_comma :
  predict Demo.b64decode Demo.pil_open_rgb Demo.detect_one
          Demo.bare_payload Demo.now (Some Demo.log) =
  (Ok invalid_image, Some Demo.log).
Proof. reflexivity. Qed.

(** A string payload that mentions "image" passes the membership test and
    fails at the subscript; one that does not is answered 400. *)
Example predict_string_payload :
  predict Demo.b64decode Demo.pil_open_rgb Demo.detect_one
          (JStr "an image") Demo.now (Some Demo.log) =
  (Raise TypeError, Some Demo.log) /\
  predict Demo.b64decode Demo.pil_open_rgb Demo.detect_one
          (JStr "hello") Demo.now (Some Demo.log) =
  (Ok missing_image, Some Demo.log).
Proof. split; reflexivity. Qed.

Example predict_number_payload :
  predict Demo.b64decode Demo.pil_open_rgb Demo.detect_one
          (JNum 5) Demo.now (Some Demo.log) =
  (Raise TypeError, Some Demo.log).
Proof. reflexivity. Qed.

Example history_demo :
  fst (history (Some (mkTable [mkRow 1 "t1" "sad" (6 # 10)%Q;
                               mkRow 2 "t2" "happy" (7 # 10)%Q] 2))) =
  Ok (JObj [("history",
             JArr [JObj [("timestamp", JStr "t2"); ("emotion", JStr "happy");
                         ("confidence", JNum (7 # 10)%Q)];
                   JObj [("timestamp", JStr "t1"); ("emotion", JStr "sad");
                         ("confidence", JNum (6 # 10)%Q)]])],
      200).
Proof. reflexivity. Qed.

(** ** Stores the application builds *)

(** Starting from a file without the table, every request leaves rowids
    growing along the storage order. *)
Lemma fresh_store_ascending : ascending (records (snd (init_db None))).
Proof. simpl. constructor. Qed.

Lemma predict_keeps_ascending
      (b64decode : string -> result (list Byte.byte))
      (pil_open_rgb : list Byte.byte -> result image)
      (detect_emotions : image -> list face)
      (payload : json) (now : string) (db : database) :
  ascending (records db) ->
  ascending
    (records (snd (predict b64decode pil_open_rgb detect_emotions
                           payload now db))).
Proof.
  intros Hasc.
  pose proof (predict_inv b64decode pil_open_rgb detect_emotions
                          payload now db) as Hinv.
  destruct (predict _ _ _ payload now db) as [out db'].
  cbn [fst snd] in *.
  inversion Hinv; subst; try exact Hasc.
  apply table_insert_ascending. exact Hasc.
Qed.

(** ** The specification's claims *)

Section Claims.

Variable b64decode : string -> result (list Byte.byte).
Variable pil_open_rgb : list Byte.byte -> result image.
Variable detect_emotions : image -> list face.

Local Abbreviation decode := (data_url_to_cv2_image b64decode pil_open_rgb).
Local Abbreviation predict_ :=
  (predict b64decode pil_open_rgb detect_emotions).

(** C1, as amended: on a store that holds the table, when the first
    detected face of the decoded image has a non-empty emotion-score
    mapping, [/predict] answers 200 with an
    ['emotion'] that is a label of that mapping whose score no other
    score of the mapping exceeds, and a ['confidence'] equal to that
    label's score. *)
Theorem predict_top_emotion_of_first_face
        (o : dict json) (v : json) (img : image)
        (face0 : face) (others : list face) (now : string) (t : table) :
  dict_get o "image" = Some v ->
  decode v = Ok (Some img) ->
  detect_emotions img = face0 :: others ->
  face_get_emotions face0 <> [] ->
  exists e c,
    top_emotion (face_get_emotions face0) e c /\
    fst (predict_ (JObj o) now (Some t)) =
    Ok (JObj [("emotion", JStr e); ("confidence", JNum c)], 200).
Proof.
  intros Hv Hd Hf Hne.
  destruct (predict_logged b64decode pil_open_rgb detect_emotions
              o v img face0 others now t Hv Hd Hf Hne)
    as (e & c & Htop & Hrun).
  exists e, c. split; [exact Htop|]. rewrite Hrun. reflexivity.
Qed.

(** C2: a [/predict] request that answers with a predicted result (an
    ['emotion'] label and its ['confidence']) leaves the store with
    exactly one more record, appended last under a fresh rowid, holding
    the clock reading, that label and that confidence. *)
Theorem predict_result_is_logged
        (payload : json) (now : string) (db : database)
        (body : json) (status : nat) (e : string) (c : Q) :
  fst (predict_ payload now db) = Ok (body, status) ->
  json_field "emotion" body = Some (JStr e) ->
  json_field "confidence" body = Some (JNum c) ->
  exists r,
    records (snd (predict_ payload now db)) = records db ++ [r] /\
    timestamp r = now /\ emotion r = e /\ confidence r = c /\
    forall x, In x (records db) -> (id x < id r)%Z.
Proof.
  intros Hout He Hc.
  pose proof (predict_inv b64decode pil_open_rgb detect_emotions
                          payload now db) as Hinv.
  destruct (predict_ payload now db) as [out db'].
  cbn [fst snd] in *.
  subst out.
  inversion Hinv; subst; simpl in He, Hc; try discriminate.
  injection He as <-. injection Hc as <-.
  exists (mkRow (next_rowid t) now e0 c0). simpl.
  repeat split; auto.
  intros x Hx. apply next_rowid_fresh. exact Hx.
Qed.

(** C3: on every store that holds the table, [/history] answers with the entries of at most
    100 records, the ones with the largest rowids (AUTOINCREMENT gives
    a later insert a larger rowid), largest first, each entry carrying
    the record's timestamp, emotion label and confidence.  On a store
    whose rowids grow along the storage order these are the last 100
    records stored, newest first. *)
Theorem history_most_recent (t : table) :
  exists recent older,
    fst (history (Some t)) =
      Ok (JObj [("history", JArr (map entry recent))], 200) /\
    (List.length recent <= 100)%nat /\
    List.length recent = Nat.min 100 (List.length (rows t)) /\
    Permutation (recent ++ older) (rows t) /\
    descending recent /\
    (forall r x, In r recent -> In x older -> (id x <= id r)%Z) /\
    (ascending (rows t) -> recent = firstn 100 (rev (rows t))).
Proof.
  exists (firstn 100 (order_by_id_desc (rows t))),
         (skipn 100 (order_by_id_desc (rows t))).
  pose proof (order_by_id_desc_sorted (rows t)) as Hs.
  unfold descending in Hs.
  rewrite <- (firstn_skipn 100 (order_by_id_desc (rows t))) in Hs.
  apply sorted_app_inv in Hs. destruct Hs as [Hs Hcross].
  split; [rewrite history_run; reflexivity|].
  split; [apply firstn_le_length|].
  split.
  { rewrite length_firstn.
    rewrite (Permutation_length (order_by_id_desc_perm (rows t))).
    reflexivity. }
  split.
  { rewrite firstn_skipn. apply order_by_id_desc_perm. }
  split; [exact Hs|].
  split.
  { intros r x Hr Hx. apply (Hcross r x Hr Hx). }
  intros Hasc. rewrite (order_by_id_desc_ascending _ Hasc). reflexivity.
Qed.

(** C4: after a [/predict] request that answered with a result, and as
    long as the store holds the records that request left, the first
    entry of [/history] is the record just written: the clock reading,
    and the emotion label and confidence of the answer. *)
Theorem history_after_predict
        (payload : json) (now : string) (db : database)
        (e : string) (c : Q) :
  fst (predict_ payload now db) =
    Ok (JObj [("emotion", JStr e); ("confidence", JNum c)], 200) ->
  (exists t', snd (predict_ payload now db) = Some t') /\
  forall t',
    rows t' = records (snd (predict_ payload now db)) ->
    exists older,
      fst (history (Some t')) =
      Ok (JObj [("history",
                 JArr (JObj [("timestamp", JStr now);
                             ("emotion", JStr e);
                             ("confidence", JNum c)] :: older))],
          200).
Proof.
  intros Hout.
  pose proof (predict_inv b64decode pil_open_rgb detect_emotions
                          payload now db) as Hinv.
  destruct (predict_ payload now db) as [out db'].
  cbn [fst snd] in *.
  subst out.
  inversion Hinv; subst.
  split; [eauto|].
  intros t' Hrows. rewrite history_run, Hrows.
  unfold table_insert. cbn [records rows].
  rewrite order_by_id_desc_newest
    by (intros r Hr; apply next_rowid_fresh; exact Hr).
  eexists. reflexivity.
Qed.

(** C5: the store is append-only.  [init_db] and [/history] leave the
    records as they are; [/predict] keeps every record in place and
    unmodified and adds at most one after them. *)
Theorem store_append_only (db : database) :
  records (snd (init_db db)) = records db /\
  (forall payload now,
      exists extra,
        records (snd (predict_ payload now db)) = records db ++ extra /\
        (List.length extra <= 1)%nat) /\
  records (snd (history db)) = records db.
Proof.
  split; [|split].
  - rewrite init_db_run. destruct db; reflexivity.
  - intros payload now.
    pose proof (predict_inv b64decode pil_open_rgb detect_emotions
                            payload now db) as Hinv.
    destruct (predict_ payload now db) as [out db'].
  cbn [fst snd] in *.
    inversion Hinv; subst;
      try (exists []; rewrite app_nil_r; split; [reflexivity | simpl; lia]).
    eexists. simpl. split; [reflexivity | simpl; lia].
  - destruct db as [t|]; [rewrite history_run | rewrite history_no_table];
      reflexivity.
Qed.

(** C6: [/history] only reads: whatever the store, it is the same store
    after the request. *)
Theorem history_pure_read (db : database) : snd (history db) = db.
Proof.
  destruct db as [t|]; [rewrite history_run | rewrite history_no_table];
    reflexivity.
Qed.

(** C7: if every score the detector reports lies in [0,1], then the
    ['confidence'] of every [/predict] answer that has one lies in
    [0,1], and so does the confidence of any record the request adds
    to the store. *)
Theorem confidence_in_unit_interval :
  (forall img f k s,
      In f (detect_emotions img) ->
      dict_get (face_get_emotions f) k = Some s ->
      in_unit_interval s) ->
  forall payload now db,
    (forall body status x,
        fst (predict_ payload now db) = Ok (body, status) ->
        json_field "confidence" body = Some x ->
        exists c, x = JNum c /\ in_unit_interval c) /\
    (forall r,
        In r (records (snd (predict_ payload now db))) ->
        In r (records db) \/ in_unit_interval (confidence r)).
Proof.
  intros Hrange payload now db.
  pose proof (predict_inv b64decode pil_open_rgb detect_emotions
                          payload now db) as Hinv.
  destruct (predict_ payload now db) as [out db'].
  cbn [fst snd] in *.
  inversion Hinv; subst.
  - split; [|auto]. intros body status x Hb. discriminate.
  - split; [|auto]. intros body status x Hb Hx. injection Hb as <- <-.
    simpl in Hx. discriminate.
  - split; [|auto]. intros body status x Hb Hx. injection Hb as <- <-.
    simpl in Hx. discriminate.
  - split; [|auto]. intros body status x Hb Hx. injection Hb as <- <-.
    simpl in Hx. injection Hx as <-. exists 0%Q. split; [reflexivity|].
    split; discriminate.
  - split; [|auto]. intros body status x Hb Hx. injection Hb as <- <-.
    simpl in Hx. injection Hx as <-. exists 0%Q. split; [reflexivity|].
    split; discriminate.
  - assert (Hc : in_unit_interval c).
    { match goal with
      | Htop : top_emotion _ _ _, Hf : detect_emotions _ = _ |- _ =>
          destruct Htop as [Hget _];
          apply (Hrange img face0 e c);
          [rewrite Hf; left; reflexivity | exact Hget]
      end. }
    split.
    + intros body status x Hb Hx. injection Hb as <- <-.
      simpl in Hx. injection Hx as <-. exists c.
      split; [reflexivity | exact Hc].
    + intros r Hr. simpl in Hr. apply in_app_or in Hr.
      destruct Hr as [Hr | [<- | []]]; [left; exact Hr | right; exact Hc].
Qed.

(** C8: the decoder returns [None] exactly on strings without a comma.
    A string with a comma is cut at the first one; then an exception of
    the base64 decoder or of the image parser escapes uncaught, and
    otherwise the pixel buffer is returned.  Hence [/predict] answers
    400 "Invalid image data" only when the image field is a comma-less
    string, and does so for every such string. *)
Theorem decoder_none_iff_no_comma :
  (forall s, decode (JStr s) = Ok None <-> ~ has_comma s) /\
  (forall s, has_comma s ->
             (exists img, decode (JStr s) = Ok (Some img)) \/
             (exists e, decode (JStr s) = Raise e)) /\
  (forall a b e,
      ~ has_comma a ->
      (b64decode b = Raise e \/
       exists binary, b64decode b = Ok binary /\
                      pil_open_rgb binary = Raise e) ->
      decode (JStr (a ++ String comma b)) = Raise e) /\
  (forall payload now db,
      fst (predict_ payload now db) = Ok invalid_image <->
      exists o s, payload = JObj o /\
                  dict_get o "image" = Some (JStr s) /\ ~ has_comma s).
Proof.
  split; [exact (decode_none_iff b64decode pil_open_rgb)|].
  split; [|split].
  - intros s Hs.
    destruct (decode (JStr s)) as [[img|]|e] eqn:Hd; eauto.
    apply decode_none_iff in Hd. contradiction.
  - intros a b e Hno Hraise. rewrite (decode_cut _ _ a b Hno).
    destruct Hraise as [Hb | (binary & Hb & Hp)]; rewrite Hb;
      [|rewrite Hp]; reflexivity.
  - intros payload now db. split.
    + intros Hout.
      pose proof (predict_inv b64decode pil_open_rgb detect_emotions
                              payload now db) as Hinv.
      rewrite Hout in Hinv. inversion Hinv; subst. eauto.
    + intros (o & s & -> & Hv & Hno).
      apply (decode_none_iff b64decode pil_open_rgb) in Hno.
      unfold predict. destruct o as [|kv o]; [discriminate|].
      cbn [truthy negb py_in py_getitem].
      unfold bind, lift, dict_contains, dict_getitem.
      rewrite Hv. cbn [negb]. rewrite Hno. reflexivity.
Qed.

(** C9: once the image is decoded, a detector that reports no face, or
    a first face whose emotion-score mapping is empty, makes [/predict]
    answer 200 with a null emotion, confidence 0.0 and a message, and
    the store is the one it was. *)
Theorem predict_no_result_leaves_store
        (o : dict json) (v : json) (img : image)
        (now : string) (db : database) :
  dict_get o "image" = Some v ->
  decode v = Ok (Some img) ->
  (detect_emotions img = [] ->
   predict_ (JObj o) now db =
   (Ok (JObj [("emotion", JNull); ("confidence", JNum 0%Q);
              ("message", JStr "No face detected")], 200), db)) /\
  (forall face0 others,
      detect_emotions img = face0 :: others ->
      face_get_emotions face0 = [] ->
      predict_ (JObj o) now db =
      (Ok (JObj [("emotion", JNull); ("confidence", JNum 0%Q);
                 ("message", JStr "No emotion scores")], 200), db)).
Proof.
  intros Hv Hd. rewrite (predict_detected _ _ _ o v img now db Hv Hd).
  split.
  - intros ->. reflexivity.
  - intros face0 others -> ->. reflexivity.
Qed.

(** C10: two detectors whose answers agree on the first face's
    emotion-score mapping (or both report no face) lead [/predict] to the
    same answer, label and confidence included, and to the same store,
    whatever other faces they report. *)
Theorem predict_first_face_only (detect_emotions' : image -> list face) :
  (forall img,
      first_scores (detect_emotions img) =
      first_scores (detect_emotions' img)) ->
  forall payload now db,
    predict b64decode pil_open_rgb detect_emotions payload now db =
    predict b64decode pil_open_rgb detect_emotions' payload now db.
Proof.
  intros Hsame payload now db. unfold predict, bind, lift.
  destruct (negb (truthy payload)); [reflexivity|]. cbv beta.
  destruct (py_in "image" payload) as [[|]|e]; cbn [negb]; try reflexivity.
  destruct (py_getitem payload "image") as [v|e]; [|reflexivity].
  destruct (decode v) as [[img|]|e]; try reflexivity.
  specialize (Hsame img).
  destruct (detect_emotions img) as [|f1 l1],
           (detect_emotions' img) as [|f2 l2];
    simpl in Hsame; try discriminate; [reflexivity|].
  injection Hsame as ->. reflexivity.
Qed.

End Claims.

(** ** The claims on the sample requests *)

(** C1 as worded fails: a detector may report a first face without
    scores and a second face with scores; the request then has a detected
    face with a non-empty mapping, and the answer carries no label. *)
Lemma predict_blank_first_face_counterexample :
  data_url_to_cv2_image Demo.b64decode Demo.pil_open_rgb
    (JStr "data:image/png;base64,AAAA") = Ok (Some Demo.img) /\
  (exists f, In f (Demo.detect_blank_first Demo.img) /\
             face_get_emotions f <> []) /\
  fst (predict Demo.b64decode Demo.pil_open_rgb Demo.detect_blank_first
               Demo.payload Demo.now (Some Demo.log)) =
    Ok (JObj [("emotion", JNull); ("confidence", JNum 0%Q);
              ("message", JStr "No emotion scores")], 200) /\
  ~ (exists e c,
        fst (predict Demo.b64decode Demo.pil_open_rgb Demo.detect_blank_first
                     Demo.payload Demo.now (Some Demo.log)) =
        Ok (JObj [("emotion", JStr e); ("confidence", JNum c)], 200)).
Proof.
  split; [reflexivity|].
  split.
  - exists Demo.face_b. split; [right; left; reflexivity | discriminate].
  - split; [reflexivity|]. intros (e & c & H). discriminate H.
Qed.

Lemma predict_top_emotion_of_first_face_witness :
  exists e c,
    top_emotion Demo.scores e c /\
    fst (predict Demo.b64decode Demo.pil_open_rgb Demo.detect_one
                 Demo.payload Demo.now (Some Demo.log)) =
    Ok (JObj [("emotion", JStr e); ("confidence", JNum c)], 200).
Proof.
  apply (predict_top_emotion_of_first_face
           Demo.b64decode Demo.pil_open_rgb Demo.detect_one
           [("image", JStr "data:image/png;base64,AAAA")]
           (JStr "data:image/png;base64,AAAA")
           Demo.img Demo.face_a [] Demo.now Demo.log);
    [reflexivity | reflexivity | reflexivity | discriminate].
Defined.

Lemma predict_result_is_logged_witness :
  exists r,
    records (snd (predict Demo.b64decode Demo.pil_open_rgb Demo.detect_one
                          Demo.payload Demo.now (Some Demo.log))) =
    rows Demo.log ++ [r] /\
    timestamp r = Demo.now /\ emotion r = "happy" /\
    confidence r = (7 # 10)%Q /\
    forall x, In x (rows Demo.log) -> (id x < id r)%Z.
Proof.
  apply (predict_result_is_logged
           Demo.b64decode Demo.pil_open_rgb Demo.detect_one
           Demo.payload Demo.now (Some Demo.log)
           (JObj [("emotion", JStr "happy"); ("confidence", JNum (7 # 10)%Q)])
           200 "happy" (7 # 10)%Q);
    reflexivity.
Defined.

Lemma history_after_predict_witness :
  exists older,
    fst (history
           (snd (predict Demo.b64decode Demo.pil_open_rgb Demo.detect_one
                         Demo.payload Demo.now (Some Demo.log)))) =
    Ok (JObj [("history",
               JArr (JObj [("timestamp", JStr Demo.now);
                           ("emotion", JStr "happy");
                           ("confidence", JNum (7 # 10)%Q)] :: older))],
        200).
Proof.
  apply (proj2 (history_after_predict
                  Demo.b64decode Demo.pil_open_rgb Demo.detect_one
                  Demo.payload Demo.now (Some Demo.log) "happy" (7 # 10)%Q
                  eq_refl)).
  reflexivity.
Defined.

Lemma demo_scores_in_unit_interval :
  forall (img : image) (f : face) (k : string) (s : Q),
    In f (Demo.detect_one img) ->
    dict_get (face_get_emotions f) k = Some s ->
    in_unit_interval s.
Proof.
  intros img f k s [<- | []] Hget.
  cbv [face_get_emotions emotions Demo.face_a Demo.scores dict_get] in Hget.
  repeat match type of Hget with
         | context [String.eqb ?a k] => destruct (String.eqb a k)
         end;
    try discriminate; injection Hget as <-;
    split; unfold Qle; simpl; lia.
Defined.

Lemma confidence_in_unit_interval_witness :
  (forall body status x,
      fst (predict Demo.b64decode Demo.pil_open_rgb Demo.detect_one
                   Demo.payload Demo.now (Some Demo.log)) =
        Ok (body, status) ->
      json_field "confidence" body = Some x ->
      exists c, x = JNum c /\ in_unit_interval c) /\
  (forall r,
      In r (records
              (snd (predict Demo.b64decode Demo.pil_open_rgb Demo.detect_one
                            Demo.payload Demo.now (Some Demo.log)))) ->
      In r (rows Demo.log) \/ in_unit_interval (confidence r)).
Proof.
  apply (confidence_in_unit_interval
           Demo.b64decode Demo.pil_open_rgb Demo.detect_one
           demo_scores_in_unit_interval
           Demo.payload Demo.now (Some Demo.log)).
Defined.

Lemma predict_no_result_leaves_store_witness :
  predict Demo.b64decode Demo.pil_open_rgb Demo.detect_none
          Demo.payload Demo.now (Some Demo.log) =
  (Ok (JObj [("emotion", JNull); ("confidence", JNum 0%Q);
             ("message", JStr "No face detected")], 200),
   Some Demo.log).
Proof.
  apply (proj1 (predict_no_result_leaves_store
                  Demo.b64decode Demo.pil_open_rgb Demo.detect_none
                  [("image", JStr "data:image/png;base64,AAAA")]
                  (JStr "data:image/png;base64,AAAA")
                  Demo.img Demo.now (Some Demo.log)
                  eq_refl eq_refl)).
  reflexivity.
Defined.

Lemma predict_first_face_only_witness :
  predict Demo.b64decode Demo.pil_open_rgb Demo.detect_one
          Demo.payload Demo.now (Some Demo.log) =
  predict Demo.b64decode Demo.pil_open_rgb Demo.detect_two
          Demo.payload Demo.now (Some Demo.log).
Proof.
  apply (predict_first_face_only
           Demo.b64decode Demo.pil_open_rgb Demo.detect_one Demo.detect_two).
  intros img. reflexivity.
Defined.

(** * Further properties of the code *)

(** ** [max]: which label wins *)

(** The loop invariant: the current best sits in what was seen, after
    strictly smaller scores and before scores that do not exceed it. *)
Lemma max_loop_first (d : dict Q) :
  forall items seen before after maxitem maxval,
    seen = before ++ maxitem :: after ->
    dict_get d maxitem = Some maxval ->
    (forall k v, In k before -> dict_get d k = Some v -> (v < maxval)%Q) ->
    (forall k v, In k after -> dict_get d k = Some v -> (v <= maxval)%Q) ->
    (forall k, In k items -> exists v, dict_get d k = Some v) ->
    exists e c pre post,
      max_loop (dict_get d) items maxitem (Some maxval) = Ok e /\
      seen ++ items = pre ++ e :: post /\
      dict_get d e = Some c /\
      (forall k v, In k pre -> dict_get d k = Some v -> (v < c)%Q) /\
      (forall k v, In k post -> dict_get d k = Some v -> (v <= c)%Q).
Proof.
  induction items as [|a items IH];
    intros seen before after maxitem maxval Hseen Hmax Hbefore Hafter Hkeys.
  - exists maxitem, maxval, before, after. simpl.
    rewrite app_nil_r. repeat split; auto.
  - destruct (Hkeys a (or_introl eq_refl)) as [va Ha].
    assert (Hrest : forall k, In k items -> exists v, dict_get d k = Some v)
      by (intros k Hk; apply Hkeys; right; exact Hk).
    simpl. rewrite Ha. simpl.
    replace (seen ++ a :: items) with ((seen ++ [a]) ++ items)
      by (rewrite <- app_assoc; reflexivity).
    destruct (Qltb maxval va) eqn:E.
    + apply Qltb_true in E.
      apply (IH (seen ++ [a]) seen [] a va); auto.
      * intros k v Hk Hv. subst seen. apply in_app_or in Hk.
        destruct Hk as [Hk | [<- | Hk]].
        -- apply Qlt_trans with maxval; [eapply Hbefore; eauto | exact E].
        -- rewrite Hmax in Hv. injection Hv as <-. exact E.
        -- apply Qle_lt_trans with maxval; [eapply Hafter; eauto | exact E].
      * intros k v [].
    + apply Qltb_false in E.
      apply (IH (seen ++ [a]) before (after ++ [a]) maxitem maxval); auto.
      * subst seen. rewrite <- app_assoc. reflexivity.
      * intros k v Hk Hv. apply in_app_or in Hk.
        destruct Hk as [Hk | [<- | []]].
        -- eapply Hafter; eauto.
        -- rewrite Ha in Hv. injection Hv as <-. exact E.
Qed.

(** X1: on a non-empty dictionary [max(d, key=d.get)] returns a key whose
    score is strictly above the score of every key that comes before it
    in the dictionary's order and at least the score of every key after
    it: among equal best scores the first label wins. *)
Theorem py_max_first_best (d : dict Q) :
  d <> [] ->
  exists e c pre post,
    py_max (dict_keys d) (dict_get d) = Ok e /\
    dict_keys d = pre ++ e :: post /\
    dict_get d e = Some c /\
    (forall k v, In k pre -> dict_get d k = Some v -> (v < c)%Q) /\
    (forall k v, In k post -> dict_get d k = Some v -> (v <= c)%Q).
Proof.
  destruct d as [|[k0 v0] d]; [congruence|]. intros _.
  assert (H0 : dict_get ((k0, v0) :: d) k0 = Some v0)
    by (simpl; rewrite String.eqb_refl; reflexivity).
  destruct (max_loop_first ((k0, v0) :: d) (dict_keys d) [k0] [] [] k0 v0)
    as (e & c & pre & post & Hrun & Hsplit & Hget & Hpre & Hpost); auto.
  - intros k v [].
  - intros k v [].
  - intros k Hk. apply dict_get_keys. right. exact Hk.
  - exists e, c, pre, post. repeat split; auto.
    unfold py_max. cbn [dict_keys map fst]. rewrite H0. exact Hrun.
Qed.

(** ** [split]: a check that computes *)

Lemma no_comma_of_split (s : string) :
  str_split_1 comma s = [s] -> ~ has_comma s.
Proof.
  intros Hs.
  destruct (str_split_1_cases s) as [[Hno _] | (a & b & _ & _ & Hsplit)];
    [exact Hno|].
  rewrite Hsplit in Hs. discriminate.
Qed.

(** ** [/predict]: guards, failures and answers *)

Section PredictPaths.

Variable b64decode : string -> result (list Byte.byte).
Variable pil_open_rgb : list Byte.byte -> result image.
Variable detect_emotions : image -> list face.

Local Abbreviation decode := (data_url_to_cv2_image b64decode pil_open_rgb).
Local Abbreviation predict_ :=
  (predict b64decode pil_open_rgb detect_emotions).

(** An object with an image field that does not decode to pixels. *)
Lemma predict_undecoded (o : dict json) (v : json)
      (now : string) (db : database) :
  dict_get o "image" = Some v ->
  (decode v = Ok None ->
   predict_ (JObj o) now db = (Ok invalid_image, db)) /\
  (forall e, decode v = Raise e ->
             predict_ (JObj o) now db = (Raise e, db)).
Proof.
  intros Hv. destruct o as [|kv o]; [discriminate|].
  split; [intros Hd | intros e Hd];
    unfold predict; cbn [truthy negb py_in py_getitem];
    unfold dict_contains, dict_getitem, bind, lift;
    rewrite Hv; cbn [negb]; rewrite Hd; reflexivity.
Qed.

Lemma decode_non_string (v : json) :
  (forall s, v <> JStr s) -> decode v = Raise AttributeError.
Proof.
  intros Hv. destruct v; try reflexivity. exfalso. apply (Hv s). reflexivity.
Qed.




(** X3: a body that is not a JSON object never reaches the decoder, the
    detector or the store: the answer is the 400 of a missing image, or
    the request dies of a [TypeError] (a non-zero number, [true], an
    array holding "image", a string containing "image"). *)
Theorem predict_non_object_payload
        (payload : json) (now : string) (db : database) :
  (forall o, payload <> JObj o) ->
  predict_ payload now db = (Ok missing_image, db) \/
  (predict_ payload now db = (Raise TypeError, db) /\
   truthy payload = true /\ py_in "image" payload <> Ok false).
Proof.
  intros Hobj. unfold predict.
  destruct payload as [| b | q | s | l | o]; cbn [truthy py_in py_getitem].
  - left. reflexivity.
  - destruct b; [right | left; reflexivity].
    split; [reflexivity | split; [reflexivity | discriminate]].
  - destruct (negb (Qeq_bool q 0%Q)); [right | left; reflexivity].
    split; [reflexivity | split; [reflexivity | discriminate]].
  - destruct (negb (String.eqb s "")); [|left; reflexivity].
    cbn [negb]. unfold bind, lift.
    destruct (is_substring "image" s); [right | left; reflexivity].
    split; [reflexivity | split; [reflexivity | discriminate]].
  - destruct l as [|x l]; [left; reflexivity|].
    cbn [negb]. unfold bind, lift.
    destruct (existsb (is_str "image") (x :: l)); [right | left; reflexivity].
    split; [reflexivity | split; [reflexivity | discriminate]].
  - exfalso. apply (Hobj o). reflexivity.
Qed.

(** X4: an object whose image field is not a string (a number, null, an
    array, ...) makes the decoder's [split] call fail: the request dies
    of an [AttributeError], which the decoder's [except ValueError] does
    not catch, and the store is untouched. *)
Theorem predict_non_string_image
        (o : dict json) (v : json) (now : string) (db : database) :
  dict_get o "image" = Some v ->
  (forall s, v <> JStr s) ->
  predict_ (JObj o) now db = (Raise AttributeError, db).
Proof.
  intros Hv Hns.
  apply (proj2 (predict_undecoded o v now db Hv)).
  apply decode_non_string. exact Hns.
Qed.

(** X5: the decoder never reads what stands before the first comma: two
    data URLs with the same text after it decode alike, whatever media
    type or encoding the header names. *)
Theorem decode_ignores_header (a a' b : string) :
  ~ has_comma a -> ~ has_comma a' ->
  decode (JStr (a ++ String comma b)) = decode (JStr (a' ++ String comma b)).
Proof.
  intros Ha Ha'.
  rewrite (decode_cut b64decode pil_open_rgb a b Ha).
  rewrite (decode_cut b64decode pil_open_rgb a' b Ha').
  reflexivity.
Qed.

End PredictPaths.

Section PredictAnswers.

Variable b64decode : string -> result (list Byte.byte).
Variable pil_open_rgb : list Byte.byte -> result image.
Variable detect_emotions : image -> list face.

Local Abbreviation decode := (data_url_to_cv2_image b64decode pil_open_rgb).
Local Abbreviation predict_ :=
  (predict b64decode pil_open_rgb detect_emotions).


(** X7: a [/predict] request changes the store only by logging the result
    it answers with: either the answer is a predicted label with its
    confidence and the store gained that one row, or the answer is
    anything else (an error, a null emotion, an exception) and the store
    is the one it was. *)
Theorem predict_logs_or_leaves
        (payload : json) (now : string) (db : database) :
  (exists e c t,
      fst (predict_ payload now db) = Ok (prediction e c) /\
      db = Some t /\
      snd (predict_ payload now db) = Some (table_insert t now e c)) \/
  (snd (predict_ payload now db) = db /\
   forall e c, fst (predict_ payload now db) <> Ok (prediction e c)).
Proof.
  pose proof (predict_inv b64decode pil_open_rgb detect_emotions
                          payload now db) as Hinv.
  destruct (predict_ payload now db) as [out db'].
  cbn [fst snd] in *.
  inversion Hinv; subst;
    try (right; split;
         [reflexivity
         | intros e0 c0;
           unfold missing_image, invalid_image, no_result, prediction;
           discriminate]).
  left. exists e, c, t. repeat split.
Qed.

(** X8: the JSON contract of [/predict].  An answer has status 400 and a
    single ['error'] field, or status 200 with ['emotion'] and
    ['confidence']; at 200 either the emotion is null, the confidence 0.0
    and a ['message'] explains, or the emotion is a label, the confidence
    its score and there is no message. *)
Theorem predict_answer_shape
        (payload : json) (now : string) (db : database)
        (body : json) (status : nat) :
  fst (predict_ payload now db) = Ok (body, status) ->
  (status = 400%nat /\ exists msg, body = JObj [("error", JStr msg)]) \/
  (status = 200%nat /\
   ((exists msg,
        body = JObj [("emotion", JNull); ("confidence", JNum 0%Q);
                     ("message", JStr msg)]) \/
    (exists e c,
        body = JObj [("emotion", JStr e); ("confidence", JNum c)]))).
Proof.
  intros Hout.
  pose proof (predict_inv b64decode pil_open_rgb detect_emotions
                          payload now db) as Hinv.
  rewrite Hout in Hinv.
  inversion Hinv; subst.
  - left. split; eauto.
  - left. split; eauto.
  - right. split; eauto.
  - right. split; eauto.
  - right. split; eauto.
Qed.

End PredictAnswers.

(** ** Rowids *)

Lemma max_rowid_nonneg (l : list row) : (0 <= max_rowid l)%Z.
Proof.
  induction l as [|x l IH]; [apply Z.le_refl|].
  change (max_rowid (x :: l)) with (Z.max (id x) (max_rowid l)). lia.
Qed.

Lemma max_rowid_app (l1 l2 : list row) :
  max_rowid (l1 ++ l2) = Z.max (max_rowid l1) (max_rowid l2).
Proof.
  induction l1 as [|x l1 IH].
  - pose proof (max_rowid_nonneg l2). simpl app.
    change (max_rowid []) with 0%Z. lia.
  - change (max_rowid ((x :: l1) ++ l2))
      with (Z.max (id x) (max_rowid (l1 ++ l2))).
    change (max_rowid (x :: l1)) with (Z.max (id x) (max_rowid l1)).
    rewrite IH. lia.
Qed.

(** Consecutive inserts get consecutive rowids. *)
Lemma next_rowid_insert (t : table) (ts e : string) (c : Q) :
  next_rowid (table_insert t ts e c) = (next_rowid t + 1)%Z.
Proof.
  unfold next_rowid, table_insert. cbn [rows sqlite_sequence].
  rewrite max_rowid_app.
  change (max_rowid [mkRow (next_rowid t) ts e c])
    with (Z.max (next_rowid t) 0).
  pose proof (max_rowid_nonneg (rows t)). unfold next_rowid. lia.
Qed.

Lemma table_insert_unique (t : table) (ts e : string) (c : Q) :
  unique_ids (rows t) -> unique_ids (rows (table_insert t ts e c)).
Proof.
  unfold unique_ids, table_insert. cbn [rows]. intros Hnd.
  rewrite map_app. cbn [map id].
  apply (Permutation_NoDup (Permutation_cons_append _ _)).
  constructor; [|exact Hnd].
  intros Hin. apply in_map_iff in Hin. destruct Hin as (r & Hid & Hr).
  apply next_rowid_fresh in Hr. lia.
Qed.

Lemma number_above (l : list (string * string * Q)) :
  forall n r, In r (number n l) -> (n <= id r)%Z.
Proof.
  induction l as [|[[ts e] c] l IH]; intros n r; simpl; [tauto|].
  intros [<- | Hr]; [simpl; lia|]. specialize (IH _ _ Hr). lia.
Qed.

Lemma number_ascending (l : list (string * string * Q)) :
  forall n, ascending (number n l).
Proof.
  unfold ascending.
  induction l as [|[[ts e] c] l IH]; intros n; simpl; constructor.
  - apply IH.
  - rewrite Forall_forall. intros r Hr. apply number_above in Hr.
    simpl. lia.
Qed.

Lemma ascending_app (l1 l2 : list row) :
  ascending l1 -> ascending l2 ->
  (forall x y, In x l1 -> In y l2 -> (id x < id y)%Z) ->
  ascending (l1 ++ l2).
Proof.
  unfold ascending. intros H1 H2 Hcross.
  induction l1 as [|a l1 IH]; simpl; [exact H2|].
  inversion H1 as [|? ? Hl Ha]; subst. constructor.
  - apply IH; [exact Hl|]. intros x y Hx Hy. apply Hcross; [right|]; assumption.
  - rewrite Forall_forall in *. intros y Hy. apply in_app_or in Hy.
    destruct Hy as [Hy | Hy]; [apply Ha; exact Hy|].
    apply Hcross; [left; reflexivity | exact Hy].
Qed.

(** ** A run of requests *)

Section Runs.

Variable b64decode : string -> result (list Byte.byte).
Variable pil_open_rgb : list Byte.byte -> result image.
Variable detect_emotions : image -> list face.
Variable render_template : string -> result string.

Local Abbreviation handle_ :=
  (handle b64decode pil_open_rgb detect_emotions render_template).
Local Abbreviation serve_ :=
  (serve b64decode pil_open_rgb detect_emotions render_template).

(** One request: the store stays, and nothing counts as logged, or a
    [/predict] answered the best label of a first face and wrote it. *)
Lemma handle_step (req : request) (db : database) :
  (snd (handle_ req db) = db /\
   logged_one req (fst (handle_ req db)) = None /\
   (forall e c, fst (handle_ req db) <> Ok (Json (prediction e c)))) \/
  (exists payload now e c t img face0 others,
      req = POST_predict payload now /\
      db = Some t /\
      fst (handle_ req db) = Ok (Json (prediction e c)) /\
      snd (handle_ req db) = Some (table_insert t now e c) /\
      logged_one req (fst (handle_ req db)) = Some (now, e, c) /\
      detect_emotions img = face0 :: others /\
      top_emotion (face_get_emotions face0) e c).
Proof.
  destruct req as [| payload now |].
  - left. unfold handle, index, bind, lift, ret.
    destruct (render_template "index.html");
      repeat split; intros e0 c0; discriminate.
  - pose proof (predict_inv b64decode pil_open_rgb detect_emotions
                            payload now db) as Hinv.
    unfold handle, bind.
    destruct (predict _ _ _ payload now db) as [out db'].
    cbn [fst snd] in Hinv.
    inversion Hinv; subst; cbn [fst snd ret];
      try (left; repeat split; intros e0 c0;
           unfold missing_image, invalid_image, no_result, prediction;
           discriminate).
    right. exists (JObj o), now, e, c, t, img, face0, others.
    do 6 (split; [reflexivity || assumption|]). assumption.
  - left. unfold handle, bind.
    destruct db as [t|]; [rewrite history_run | rewrite history_no_table];
      cbn [fst snd ret]; repeat split; intros e0 c0; discriminate.
Qed.

Lemma serve_cons (req : request) (rest : list request) (db : database) :
  serve_ (req :: rest) db =
  (fst (handle_ req db) :: fst (serve_ rest (snd (handle_ req db))),
   snd (serve_ rest (snd (handle_ req db)))).
Proof.
  cbn [serve]. destruct (handle_ req db) as [out db'].
  cbn [fst snd]. destruct (serve_ rest db'). reflexivity.
Qed.

(** Rows after a run on a store that holds the table. *)
Lemma serve_rows (reqs : list request) :
  forall t,
  exists t',
    snd (serve_ reqs (Some t)) = Some t' /\
    rows t' =
    rows t ++ number (next_rowid t) (logged reqs (fst (serve_ reqs (Some t)))).
Proof.
  induction reqs as [|req reqs IH]; intros t.
  - exists t. simpl. rewrite app_nil_r. split; reflexivity.
  - rewrite serve_cons. cbn [fst snd logged].
    destruct (handle_step req (Some t))
      as [(Hdb & Hlog & _)
         | (payload & now & e & c & t0 & img & face0 & others
            & -> & Ht & Hout & Hdb & Hlog & _)].
    + rewrite Hdb, Hlog. apply IH.
    + injection Ht as <-. rewrite Hdb, Hlog.
      destruct (IH (table_insert t now e c)) as (t' & Hrun & Hrows).
      exists t'. split; [exact Hrun|].
      rewrite Hrows, next_rowid_insert.
      unfold table_insert at 1. cbn [rows number].
      rewrite <- app_assoc. reflexivity.
Qed.

(** X9: what a run writes.  Served on a store that holds the table, a
    sequence of requests leaves the rows it found, followed by one row per
    answered prediction, in the order of the requests, with the request's
    clock reading, the answered label and confidence, and consecutive
    rowids from the table's next rowid on.  Started on a new file, the
    store holds exactly the run's answered predictions, numbered from 1. *)
Theorem serve_log (reqs : list request) :
  (forall t,
      records (snd (serve_ reqs (Some t))) =
      rows t ++
      number (next_rowid t) (logged reqs (fst (serve_ reqs (Some t))))) /\
  records (snd (serve_ reqs (start None))) =
  number 1 (logged reqs (fst (serve_ reqs (start None)))).
Proof.
  split.
  - intros t. destruct (serve_rows reqs t) as (t' & Hrun & Hrows).
    rewrite Hrun. exact Hrows.
  - change (start None) with (Some empty_table).
    destruct (serve_rows reqs empty_table) as (t' & Hrun & Hrows).
    rewrite Hrun. exact Hrows.
Qed.

(** The table is there after every request of a run that found it. *)
Lemma handle_keeps_table (req : request) (t : table) :
  exists t', snd (handle_ req (Some t)) = Some t'.
Proof.
  destruct (handle_step req (Some t))
    as [(Hdb & _)
       | (payload & now & e & c & t0 & img & face0 & others
          & _ & _ & _ & Hdb & _)];
    rewrite Hdb; eauto.
Qed.

(** X10: what [/history] shows after a run.  On a table whose rowids
    grow along the storage order (an empty one, or one this program
    filled), [/history] asked after a sequence of requests lists the
    newest 100 of the stored rows followed by the run's answered
    predictions, the latest prediction first. *)
Theorem history_lists_log (reqs : list request) (t : table) :
  ascending (rows t) ->
  fst (history (snd (serve_ reqs (Some t)))) =
  Ok (JObj [("history",
             JArr (map entry
                    (firstn 100
                       (rev (rows t ++
                             number (next_rowid t)
                               (logged reqs
                                  (fst (serve_ reqs (Some t)))))))))],
      200).
Proof.
  intros Hasc.
  destruct (serve_rows reqs t) as (t' & Hrun & Hrows).
  rewrite Hrun, history_run, Hrows.
  rewrite order_by_id_desc_ascending; [reflexivity|].
  apply ascending_app; [exact Hasc | apply number_ascending|].
  intros x y Hx Hy. apply next_rowid_fresh in Hx.
  apply number_above in Hy. lia.
Qed.

(** X11: only [POST /predict] writes.  A sequence of page and history
    requests, however long and whatever the template renderer does,
    leaves the store exactly as it was. *)
Theorem serve_read_only (reqs : list request) (db : database) :
  Forall read_only reqs -> snd (serve_ reqs db) = db.
Proof.
  induction reqs as [|req reqs IH]; intros Hro; [reflexivity|].
  inversion Hro as [|? ? Hreq Hrest]; subst.
  rewrite serve_cons. cbn [snd].
  destruct (handle_step req db)
    as [(Hdb & _)
       | (payload & now & e & c & t0 & img & face0 & others & -> & _)].
  - rewrite Hdb. apply IH. exact Hrest.
  - destruct Hreq.
Qed.

(** X12: restarting the application between two runs is invisible:
    [init_db] at the second start finds the table and keeps rows and
    rowid counter, so the second run answers and writes as it would have
    without the restart. *)
Theorem restart_is_invisible (reqs reqs' : list request) (db : database) :
  start (snd (serve_ reqs (start db))) = snd (serve_ reqs (start db)) /\
  serve_ reqs' (start (snd (serve_ reqs (start db)))) =
  serve_ reqs' (snd (serve_ reqs (start db))).
Proof.
  destruct (init_db_creates_table db) as (t & Hstart & _).
  assert (Hs : start db = Some t) by exact Hstart.
  destruct (serve_rows reqs t) as (t' & Hrun & _).
  rewrite Hs, Hrun. split; reflexivity.
Qed.

(** X13: if every score the detector reports lies in [0,1] and every
    stored confidence does, then after any sequence of requests every
    stored confidence still does (and so does every confidence
    [/history] lists). *)
Theorem serve_keeps_unit_confidences :
  (forall img f k s,
      In f (detect_emotions img) ->
      dict_get (face_get_emotions f) k = Some s ->
      in_unit_interval s) ->
  forall reqs db,
    unit_confidences (records db) ->
    unit_confidences (records (snd (serve_ reqs db))).
Proof.
  intros Hrange. unfold unit_confidences.
  induction reqs as [|req reqs IH]; intros db Hdb; [exact Hdb|].
  rewrite serve_cons. cbn [snd]. apply IH.
  destruct (handle_step req db)
    as [(Hsame & _)
       | (payload & now & e & c & t & img & face0 & others
          & _ & -> & _ & Hnew & _ & Hf & [Hget _])].
  - rewrite Hsame. exact Hdb.
  - rewrite Hnew. unfold table_insert. cbn [records rows].
    apply Forall_app. split; [exact Hdb|].
    constructor; [|constructor]. cbn [confidence].
    apply (Hrange img face0 e c); [rewrite Hf; left; reflexivity | exact Hget].
Qed.

(** X14: rowids stay unique.  If no two stored rows share a rowid, none
    do after any sequence of requests: every insert takes a rowid above
    all stored ones. *)
Theorem serve_keeps_unique_ids (reqs : list request) :
  forall db,
    unique_ids (records db) ->
    unique_ids (records (snd (serve_ reqs db))).
Proof.
  induction reqs as [|req reqs IH]; intros db Hdb; [exact Hdb|].
  rewrite serve_cons. cbn [snd]. apply IH.
  destruct (handle_step req db)
    as [(Hsame & _)
       | (payload & now & e & c & t & img & face0 & others
          & _ & -> & _ & Hnew & _)].
  - rewrite Hsame. exact Hdb.
  - rewrite Hnew. apply table_insert_unique. exact Hdb.
Qed.

Lemma serve_history_answered (reqs : list request) :
  forall (t : table) (i : nat),
    nth_error reqs i = Some GET_history ->
    exists entries,
      nth_error (fst (serve_ reqs (Some t))) i =
        Some (Ok (Json (JObj [("history", JArr entries)], 200))) /\
      (List.length entries <= 100)%nat.
Proof.
  induction reqs as [|req reqs IH]; intros t i Hi.
  - destruct i; discriminate.
  - rewrite serve_cons. cbn [fst]. destruct i as [|i]; cbn [nth_error] in *.
    + injection Hi as ->. unfold handle, bind. rewrite history_run.
      cbn [fst ret]. eexists. split; [reflexivity|].
      rewrite length_map. apply firstn_le_length.
    + destruct (handle_keeps_table req t) as [t' Ht'].
      rewrite Ht'. apply IH. exact Hi.
Qed.

(** X15: once the application has started, [/history] never fails for
    want of the table: in any run, on any file, every history request is
    answered 200 with a list of at most 100 entries. *)
Theorem history_answered_after_start
        (reqs : list request) (db : database) (i : nat) :
  nth_error reqs i = Some GET_history ->
  exists entries,
    nth_error (fst (serve_ reqs (start db))) i =
      Some (Ok (Json (JObj [("history", JArr entries)], 200))) /\
    (List.length entries <= 100)%nat.
Proof.
  intros Hi.
  destruct (init_db_creates_table db) as (t & Hstart & _).
  unfold start. rewrite Hstart. apply serve_history_answered. exact Hi.
Qed.

End Runs.

(** ** The further properties on the sample requests *)

(** A run on a new file: a page view, a prediction, a request without a
    comma in its image, a history view and one more prediction. *)
Example serve_sample :
  let run := serve Demo.b64decode Demo.pil_open_rgb Demo.detect_one
                   Sample.render_template Sample.requests (start None) in
  logged Sample.requests (fst run) =
    [("2024-05-01T10:00:00", "happy", (7 # 10)%Q);
     ("2024-05-01T10:00:09", "happy", (7 # 10)%Q)] /\
  snd run =
    Some (mkTable [mkRow 1 "2024-05-01T10:00:00" "happy" (7 # 10)%Q;
                   mkRow 2 "2024-05-01T10:00:09" "happy" (7 # 10)%Q] 2) /\
  nth_error (fst run) 0 = Some (Ok (Page "<html>camera page</html>")) /\
  nth_error (fst run) 2 = Some (Ok (Json invalid_image)).
Proof. repeat split; reflexivity. Qed.

Example predict_array_payload :
  predict Demo.b64decode Demo.pil_open_rgb Demo.detect_one
          (JArr [JStr "image"]) Demo.now (Some Demo.log) =
  (Raise TypeError, Some Demo.log).
Proof. reflexivity. Qed.

Lemma py_max_first_best_witness :
  exists e c pre post,
    py_max (dict_keys Demo.scores) (dict_get Demo.scores) = Ok e /\
    dict_keys Demo.scores = pre ++ e :: post /\
    dict_get Demo.scores e = Some c /\
    (forall k v, In k pre -> dict_get Demo.scores k = Some v -> (v < c)%Q) /\
    (forall k v, In k post -> dict_get Demo.scores k = Some v -> (v <= c)%Q).
Proof.
  apply (py_max_first_best Demo.scores). discriminate.
Defined.

Lemma predict_non_object_payload_witness :
  predict Demo.b64decode Demo.pil_open_rgb Demo.detect_one
          (JArr [JStr "image"]) Demo.now (Some Demo.log) =
    (Ok missing_image, Some Demo.log) \/
  (predict Demo.b64decode Demo.pil_open_rgb Demo.detect_one
           (JArr [JStr "image"]) Demo.now (Some Demo.log) =
     (Raise TypeError, Some Demo.log) /\
   truthy (JArr [JStr "image"]) = true /\
   py_in "image" (JArr [JStr "image"]) <> Ok false).
Proof.
  apply (predict_non_object_payload
           Demo.b64decode Demo.pil_open_rgb Demo.detect_one
           (JArr [JStr "image"]) Demo.now (Some Demo.log)).
  intros o. discriminate.
Defined.

Lemma predict_non_string_image_witness :
  predict Demo.b64decode Demo.pil_open_rgb Demo.detect_one
          (JObj [("image", JNum 5)]) Demo.now (Some Demo.log) =
  (Raise AttributeError, Some Demo.log).
Proof.
  apply (predict_non_string_image
           Demo.b64decode Demo.pil_open_rgb Demo.detect_one
           [("image", JNum 5)] (JNum 5) Demo.now (Some Demo.log));
    [reflexivity | intros s; discriminate].
Defined.

Lemma decode_ignores_header_witness :
  data_url_to_cv2_image Demo.b64decode Demo.pil_open_rgb
    (JStr ("data:image/png;base64" ++ String comma "AAAA")) =
  data_url_to_cv2_image Demo.b64decode Demo.pil_open_rgb
    (JStr ("data:text/plain" ++ String comma "AAAA")).
Proof.
  apply (decode_ignores_header Demo.b64decode Demo.pil_open_rgb
           "data:image/png;base64" "data:text/plain" "AAAA");
    apply no_comma_of_split; reflexivity.
Defined.


Lemma predict_answer_shape_witness :
  (200%nat = 400%nat /\
   exists msg,
     JObj [("emotion", JStr "happy"); ("confidence", JNum (7 # 10)%Q)] =
     JObj [("error", JStr msg)]) \/
  (200%nat = 200%nat /\
   ((exists msg,
        JObj [("emotion", JStr "happy"); ("confidence", JNum (7 # 10)%Q)] =
        JObj [("emotion", JNull); ("confidence", JNum 0%Q);
              ("message", JStr msg)]) \/
    (exists e c,
        JObj [("emotion", JStr "happy"); ("confidence", JNum (7 # 10)%Q)] =
        JObj [("emotion", JStr e); ("confidence", JNum c)]))).
Proof.
  apply (predict_answer_shape
           Demo.b64decode Demo.pil_open_rgb Demo.detect_one
           Demo.payload Demo.now (Some Demo.log)
           (JObj [("emotion", JStr "happy"); ("confidence", JNum (7 # 10)%Q)])
           200%nat).
  reflexivity.
Defined.

Lemma history_lists_log_witness :
  fst (history
         (snd (serve Demo.b64decode Demo.pil_open_rgb Demo.detect_one
                     Sample.render_template Sample.requests
                     (Some empty_table)))) =
  Ok (JObj [("history",
             JArr (map entry
                    (firstn 100
                       (rev (rows empty_table ++
                             number (next_rowid empty_table)
                               (logged Sample.requests
                                  (fst (serve Demo.b64decode
                                          Demo.pil_open_rgb Demo.detect_one
                                          Sample.render_template
                                          Sample.requests
                                          (Some empty_table)))))))))],
      200%nat).
Proof.
  apply (history_lists_log
           Demo.b64decode Demo.pil_open_rgb Demo.detect_one
           Sample.render_template Sample.requests empty_table).
  constructor.
Defined.

Lemma serve_read_only_witness :
  snd (serve Demo.b64decode Demo.pil_open_rgb Demo.detect_one
             Sample.render_template Sample.page_views (Some Demo.log)) =
  Some Demo.log.
Proof.
  apply (serve_read_only
           Demo.b64decode Demo.pil_open_rgb Demo.detect_one
           Sample.render_template Sample.page_views (Some Demo.log)).
  repeat constructor.
Defined.

Lemma serve_keeps_unit_confidences_witness :
  unit_confidences
    (records (snd (serve Demo.b64decode Demo.pil_open_rgb Demo.detect_one
                         Sample.render_template Sample.requests
                         (Some Demo.log)))).
Proof.
  apply (serve_keeps_unit_confidences
           Demo.b64decode Demo.pil_open_rgb Demo.detect_one
           Sample.render_template demo_scores_in_unit_interval
           Sample.requests (Some Demo.log)).
  constructor; [|constructor].
  split; unfold Qle; simpl; lia.
Defined.

Lemma serve_keeps_unique_ids_witness :
  unique_ids
    (records (snd (serve Demo.b64decode Demo.pil_open_rgb Demo.detect_one
                         Sample.render_template Sample.requests
                         (Some Demo.log)))).
Proof.
  apply (serve_keeps_unique_ids
           Demo.b64decode Demo.pil_open_rgb Demo.detect_one
           Sample.render_template Sample.requests (Some Demo.log)).
  constructor; [intros [] | constructor].
Defined.

Lemma history_answered_after_start_witness :
  exists entries,
    nth_error (fst (serve Demo.b64decode Demo.pil_open_rgb Demo.detect_one
                          Sample.render_template Sample.requests
                          (start None))) 3 =
      Some (Ok (Json (JObj [("history", JArr entries)], 200%nat))) /\
    (List.length entries <= 100)%nat.
Proof.
  apply (history_answered_after_start
           Demo.b64decode Demo.pil_open_rgb Demo.detect_one
           Sample.render_template Sample.requests None 3).
  reflexivity.
Defined.
